(** * react-native-draglist: the drag gesture engine of [src/index.tsx]

    A shallow embedding of [DragListImpl] and [CellRendererComponent].

    Modelling conventions.
    - JavaScript numbers that hold screen coordinates (positions, extents,
      scroll offsets, gesture deltas) are exact rationals [Qc]; numbers that
      hold list indices ([activeIndex], [panIndex], [curIndex]) are integers
      [Z], since the code stores [-1] in them.  The rounding of binary64
      sums is not modelled: the properties below go through the comparisons
      the code itself makes and state no exact identity between sums.
    - [useRef] cells are the fields of one [State] record, threaded explicitly
      through every handler.  A handler returns the new state together with
      the list of calls it made to the outside world ([Output]).
    - The [layouts] object is a finite map from item keys to [PosExtent]:
      the map holds the own properties of the object, and
      [layouts.hasOwnProperty(k)] is [is_Some (layouts !! k)].  An assignment
      to the key [__proto__] creates no own property (see [onCellLayout]).
      An item whose key is [hasOwnProperty] would replace the method the
      handlers call; such a key is outside this embedding.
    - Optional callbacks ([onDragBegin?.()], [reorderRef.current?.(..)]) are
      booleans telling whether the caller supplied them; a call to a supplied
      callback is logged in the output.
    - The [async] release handler is split at its single [await]:
      [onPanResponderRelease] runs up to the [await], and
      [onPanResponderRelease_resume] is the continuation that runs when the
      awaited promise settles. *)

From Stdlib Require Import ZArith QArith Qcanon Lia.
From stdpp Require Import base numbers option list gmap strings.

Local Open Scope Z_scope.

(** ** Data model *)

(** [PosExtent] of [DragListContext]: position and size along the scroll axis. *)
Record PosExtent := mkPosExtent { pos : Qc; extent : Qc }.

(** [ExtraData]: only used to make the list re-render. *)
Record ExtraData := mkExtra { extra_activeKey : option string; extra_panIndex : Z }.

(** The gesture state handed to the pan responder callbacks. *)
Record GestureState := mkGesture { x0 : Qc; y0 : Qc; dx : Qc; dy : Qc }.

(** The six numbers passed to a [measure] callback. *)
Record Measure := mkMeasure {
  m_x : Qc; m_y : Qc; m_width : Qc; m_height : Qc; m_pageX : Qc; m_pageY : Qc }.

(** [evt.nativeEvent.layout] of a cell. *)
Record LayoutRect := mkLayoutRect {
  l_x : Qc; l_y : Qc; l_width : Qc; l_height : Qc }.

(** The properties of the component that the handlers read.  [rest_scrollEnabled]
    is the [scrollEnabled] entry of [...rest], if the caller passed one. *)
Record Props := mkProps {
  horizontal : bool;
  onDragBegin : bool;
  onDragEnd : bool;
  onHoverChanged : bool;
  onScroll : bool;
  onLayout : bool;
  rest_scrollEnabled : option bool }.

(** Calls made to the application and to the list. *)
Inductive Output :=
| CallDragBegin
| CallDragEnd
| CallHoverChanged (hoverIndex : Z)
| CallReordered (fromIndex toIndex : Z)
| CallScroll
| CallLayout
| ScrollToOffset (animated : bool) (offset : Qc).

(** How the promise awaited in the release handler settles. *)
Inductive Settled := Fulfilled | Rejected.

(** How the [async] release handler itself completes. *)
Inductive Completion := Returned | Threw.

Global Instance PosExtent_eq_dec : EqDecision PosExtent.
Proof. solve_decision. Defined.
Global Instance Output_eq_dec : EqDecision Output.
Proof. solve_decision. Defined.
Global Instance Settled_eq_dec : EqDecision Settled.
Proof. solve_decision. Defined.

(** JavaScript truthiness of [string | null]: [null] and the empty string are
    falsy. *)
Definition truthy (k : option string) : bool :=
  match k with
  | Some EmptyString => false
  | Some _ => true
  | None => false
  end.

Definition half (e : Qc) : Qc := (e / 2)%Qc.

(** The one key whose assignment into a plain object is not a property. *)
Definition protoKey : string := "__proto__".

Section DragList.

Context {T : Type}.
Variable keyExtractor : T → Z → string.
Variable props : Props.

(** The refs (and the [extra] state) of [DragListImpl]; [data] is the current
    [props.data], [dataRef] the copy the effect keeps in [dataRef.current]. *)
Record State := mkState {
  data : list T;
  activeKey : option string;
  activeIndex : Z;
  reorderingRef : bool;
  panIndex : Z;
  extra : ExtraData;
  layouts : gmap string PosExtent;
  dataRef : list T;
  panGrantedRef : bool;
  reorderRef : bool;
  flatRef : bool;
  flatWrapLayout : PosExtent;
  scrollPos : Qc;
  pan : Qc }.

(** The state after the first render of a list showing [d]. *)
Definition initial (d : list T) (onReordered : bool) : State :=
  {| data := d; activeKey := None; activeIndex := -1; reorderingRef := false;
     panIndex := -1; extra := mkExtra None (-1); layouts := ∅; dataRef := d;
     panGrantedRef := false; reorderRef := onReordered; flatRef := true;
     flatWrapLayout := mkPosExtent 0 1; scrollPos := 0%Qc; pan := 0%Qc |}.

(** [hoverRef] is initialised from the property and never written again. *)
Definition hoverRef : bool := onHoverChanged props.

(** *** The four should-set predicates of the pan responder (lines 114-121) *)

Definition onStartShouldSetPanResponderCapture (st : State) : bool :=
  truthy (activeKey st) && negb (reorderingRef st).
Definition onStartShouldSetPanResponder (st : State) : bool :=
  truthy (activeKey st) && negb (reorderingRef st).
Definition onMoveShouldSetPanResponder (st : State) : bool :=
  truthy (activeKey st) && negb (reorderingRef st).
Definition onMoveShouldSetPanResponderCapture (st : State) : bool :=
  truthy (activeKey st) && negb (reorderingRef st).

(** *** [reset] (lines 236-243) *)

Definition reset (st : State) : State :=
  {| data := data st;
     activeKey := None;
     activeIndex := -1;
     reorderingRef := reorderingRef st;
     panIndex := -1;
     extra := mkExtra None (-1);
     layouts := layouts st;
     dataRef := dataRef st;
     panGrantedRef := false;
     reorderRef := reorderRef st;
     flatRef := flatRef st;
     flatWrapLayout := flatWrapLayout st;
     scrollPos := scrollPos st;
     pan := 0%Qc |}.

(** *** [onPanResponderGrant] (lines 122-144) *)

Definition onPanResponderGrant (g : GestureState) (st : State)
  : State * list Output :=
  ({| data := data st;
      activeKey := activeKey st;
      activeIndex := activeIndex st;
      reorderingRef := reorderingRef st;
      panIndex := panIndex st;
      extra := extra st;
      layouts := layouts st;
      dataRef := dataRef st;
      panGrantedRef := true;
      reorderRef := reorderRef st;
      flatRef := flatRef st;
      flatWrapLayout := flatWrapLayout st;
      scrollPos := scrollPos st;
      pan := if horizontal props then dx g else dy g |},
   if onDragBegin props then [CallDragBegin] else []).

(** The callback passed to [flatWrapRef.current?.measure] on grant
    (lines 130-141): [{...flatWrapLayout.current, pos: ...}]. *)
Definition onGrantMeasured (m : Measure) (st : State) : State :=
  {| data := data st;
     activeKey := activeKey st;
     activeIndex := activeIndex st;
     reorderingRef := reorderingRef st;
     panIndex := panIndex st;
     extra := extra st;
     layouts := layouts st;
     dataRef := dataRef st;
     panGrantedRef := panGrantedRef st;
     reorderRef := reorderRef st;
     flatRef := flatRef st;
     flatWrapLayout :=
       {| pos := if horizontal props then m_pageX m else m_pageY m;
          extent := extent (flatWrapLayout st) |};
     scrollPos := scrollPos st;
     pan := pan st |}.

(** *** [onPanResponderMove] (lines 145-207) *)

(** The auto-scroll decision (lines 155-168): the value of [offset]. *)
Definition scrollOffset (wrapPos dragItemExtent : Qc) (st : State) : Qc :=
  let leadingEdge := (wrapPos - half dragItemExtent)%Qc in
  let trailingEdge := (wrapPos + half dragItemExtent)%Qc in
  if decide (leadingEdge < 0)%Qc then
    if decide (dragItemExtent ≤ scrollPos st)%Qc
    then (- dragItemExtent)%Qc
    else (- scrollPos st)%Qc
  else if decide (extent (flatWrapLayout st) < trailingEdge)%Qc then
    (scrollPos st + dragItemExtent)%Qc
  else 0%Qc.

(** The scroll request (lines 170-175). *)
Definition autoScroll (wrapPos dragItemExtent : Qc) (st : State) : list Output :=
  let offset := scrollOffset wrapPos dragItemExtent st in
  if decide (offset ≠ 0%Qc) then
    if flatRef st
    then [ScrollToOffset true (scrollPos st + offset)%Qc]
    else []
  else [].

(** The [while] loop of lines 181-191, started at [curIndex] on the items
    [dataRef.current[curIndex..]]. *)
Fixpoint scan (lay : gmap string PosExtent) (clientPos : Qc)
    (items : list T) (curIndex : Z) : Z :=
  match items with
  | [] => curIndex
  | item :: items' =>
      match lay !! keyExtractor item curIndex with
      | Some l =>
          if decide (pos l + extent l < clientPos)%Qc
          then scan lay clientPos items' (curIndex + 1)
          else curIndex
      | None => curIndex
      end
  end.

(** The value of [curIndex] after the loop. *)
Definition resolveIndex (st : State) (clientPos : Qc) : Z :=
  scan (layouts st) clientPos (dataRef st) 0.

(** The loop does not pass an item whose test fails: one that is not
    measured, or whose trailing boundary is not strictly below [c]. *)
Definition stopsAt (lay : gmap string PosExtent) (c : Qc) (item : T) (index : Z)
  : Prop :=
  match lay !! keyExtractor item index with
  | Some l => ¬ (pos l + extent l < c)%Qc
  | None => True
  end.

(** The loop passes an item that is measured with its trailing boundary
    strictly below [c]. *)
Definition passes (lay : gmap string PosExtent) (c : Qc) (item : T) (index : Z)
  : Prop :=
  ∃ l, lay !! keyExtractor item index = Some l ∧ (pos l + extent l < c)%Qc.

(** Every item of [dataRef.current] has a [layouts] entry. *)
Definition fullyMeasured (st : State) : Prop :=
  ∀ (i : nat) item, dataRef st !! i = Some item →
    is_Some (layouts st !! keyExtractor item (Z.of_nat i)).

Definition wrapPosOf (g : GestureState) (st : State) : Qc :=
  let posOrigin := if horizontal props then x0 g else y0 g in
  let pos_ := if horizontal props then dx g else dy g in
  (posOrigin + pos_ - pos (flatWrapLayout st))%Qc.

Definition clientPosOf (g : GestureState) (st : State) : Qc :=
  (wrapPosOf g st + scrollPos st)%Qc.

(** The handler.  [extra] in [setExtra({...extra, panIndex: curIndex})] is the
    value captured when the responder was created, [{activeKey: null,
    panIndex: -1}]. *)
Definition onPanResponderMove (g : GestureState) (st : State)
  : State * list Output :=
  let wrapPos := wrapPosOf g st in
  let clientPos := clientPosOf g st in
  if truthy (activeKey st) then
    match activeKey st ≫= λ key, layouts st !! key with
    | Some l =>
        let dragItemExtent := extent l in
        let scrolls := autoScroll wrapPos dragItemExtent st in
        let curIndex := resolveIndex st clientPos in
        let changed := negb (panIndex st =? curIndex) in
        ({| data := data st;
            activeKey := activeKey st;
            activeIndex := activeIndex st;
            reorderingRef := reorderingRef st;
            panIndex := curIndex;
            extra := if changed then mkExtra None curIndex else extra st;
            layouts := layouts st;
            dataRef := dataRef st;
            panGrantedRef := panGrantedRef st;
            reorderRef := reorderRef st;
            flatRef := flatRef st;
            flatWrapLayout := flatWrapLayout st;
            scrollPos := scrollPos st;
            pan := (clientPos - (pos l + half dragItemExtent))%Qc |},
         scrolls ++
         (if changed && hoverRef then [CallHoverChanged curIndex] else []))
    | None => (st, [])
    end
  else (st, []).

(** *** [onPanResponderRelease] (lines 208-232) *)

(** The condition of the [if] (lines 210-217). *)
Definition shouldReorder (st : State) : bool :=
  negb (activeIndex st =? panIndex st) &&
  negb ((activeIndex st =? Z.of_nat (length (dataRef st)) - 1) &&
        (activeIndex st <? panIndex st)).

(** The condition under which a release calls the reorder handler, as C3
    words it. *)
Definition reorderable (st : State) : Prop :=
  activeIndex st ≠ panIndex st ∧
  ¬ (activeIndex st = Z.of_nat (length (dataRef st)) - 1 ∧
     activeIndex st < panIndex st).

Definition set_reorderingRef (b : bool) (st : State) : State :=
  {| data := data st;
     activeKey := activeKey st;
     activeIndex := activeIndex st;
     reorderingRef := b;
     panIndex := panIndex st;
     extra := extra st;
     layouts := layouts st;
     dataRef := dataRef st;
     panGrantedRef := panGrantedRef st;
     reorderRef := reorderRef st;
     flatRef := flatRef st;
     flatWrapLayout := flatWrapLayout st;
     scrollPos := scrollPos st;
     pan := pan st |}.

(** The handler up to its [await].  The boolean tells whether it is suspended
    at the [await] ([true]) or has run to its end ([false]). *)
Definition onPanResponderRelease (st : State) : State * list Output * bool :=
  let ended := if onDragEnd props then [CallDragEnd] else [] in
  if shouldReorder st then
    (set_reorderingRef true st,
     ended ++
     (if reorderRef st
      then [CallReordered (activeIndex st) (panIndex st)]
      else []),
     true)
  else (reset st, ended, false).

(** The [(fromIndex, toIndex)] pairs the reorder handler was called with. *)
Definition reorderCalls (out : list Output) : list (Z * Z) :=
  omap (λ o, match o with CallReordered f t => Some (f, t) | _ => None end) out.

(** The continuation of the [await]: the [finally] block, then either
    [reset()] or the rethrown rejection. *)
Definition onPanResponderRelease_resume (o : Settled) (st : State)
  : State * Completion :=
  let st1 := set_reorderingRef false st in
  match o with
  | Fulfilled => (reset st1, Returned)
  | Rejected => (st1, Threw)
  end.

(** *** The per-item callbacks of [renderDragItem] (lines 253-292) *)

Definition onDragStart (item : T) (index : Z) (st : State) : State :=
  let key := keyExtractor item index in
  if 1 <? Z.of_nat (length (data st)) then
    {| data := data st;
       activeKey := Some key;
       activeIndex := index;
       reorderingRef := reorderingRef st;
       panIndex := index;
       extra := mkExtra (Some key) index;
       layouts := layouts st;
       dataRef := dataRef st;
       panGrantedRef := panGrantedRef st;
       reorderRef := reorderRef st;
       flatRef := flatRef st;
       flatWrapLayout := flatWrapLayout st;
       scrollPos := scrollPos st;
       pan := pan st |}
  else st.

Definition onDragEnd_item (st : State) : State :=
  match activeKey st with
  | Some _ => if negb (panGrantedRef st) then reset st else st
  | None => st
  end.

(** *** Scroll and layout (lines 294-320, 430-439) *)

Definition onDragScroll (x y : Qc) (st : State) : State * list Output :=
  ({| data := data st;
      activeKey := activeKey st;
      activeIndex := activeIndex st;
      reorderingRef := reorderingRef st;
      panIndex := panIndex st;
      extra := extra st;
      layouts := layouts st;
      dataRef := dataRef st;
      panGrantedRef := panGrantedRef st;
      reorderRef := reorderRef st;
      flatRef := flatRef st;
      flatWrapLayout := flatWrapLayout st;
      scrollPos := if horizontal props then x else y;
      pan := pan st |},
   if onScroll props then [CallScroll] else []).

(** [onDragLayout] itself only forwards the event; the frame is written by
    the [measure] callback, [onLayoutMeasured]. *)
Definition onDragLayout (st : State) : State * list Output :=
  (st, if onLayout props then [CallLayout] else []).

Definition onLayoutMeasured (m : Measure) (st : State) : State :=
  {| data := data st;
     activeKey := activeKey st;
     activeIndex := activeIndex st;
     reorderingRef := reorderingRef st;
     panIndex := panIndex st;
     extra := extra st;
     layouts := layouts st;
     dataRef := dataRef st;
     panGrantedRef := panGrantedRef st;
     reorderRef := reorderRef st;
     flatRef := flatRef st;
     flatWrapLayout :=
       if horizontal props
       then {| pos := m_pageX m; extent := m_width m |}
       else {| pos := m_pageY m; extent := m_height m |};
     scrollPos := scrollPos st;
     pan := pan st |}.

(** [layouts[key] = ...] (line 436) assigns into a plain object.  For the
    key [__proto__] the assignment sets the prototype of the object and
    creates no own property, so [hasOwnProperty] goes on answering false for
    that key; every other key gets an own property. *)
Definition onCellLayout (key : string) (layout : LayoutRect) (st : State) : State :=
  {| data := data st;
     activeKey := activeKey st;
     activeIndex := activeIndex st;
     reorderingRef := reorderingRef st;
     panIndex := panIndex st;
     extra := extra st;
     layouts :=
       if decide (key = protoKey) then layouts st
       else
         <[ key :=
              if horizontal props
              then {| pos := l_x layout; extent := l_width layout |}
              else {| pos := l_y layout; extent := l_height layout |} ]>
           (layouts st);
     dataRef := dataRef st;
     panGrantedRef := panGrantedRef st;
     reorderRef := reorderRef st;
     flatRef := flatRef st;
     flatWrapLayout := flatWrapLayout st;
     scrollPos := scrollPos st;
     pan := pan st |}.

(** The two effects of lines 245-251, run after a render with new
    properties. *)
Definition onPropsChanged (d : list T) (onReordered : bool) (st : State) : State :=
  {| data := d;
     activeKey := activeKey st;
     activeIndex := activeIndex st;
     reorderingRef := reorderingRef st;
     panIndex := panIndex st;
     extra := extra st;
     layouts := layouts st;
     dataRef := d;
     panGrantedRef := panGrantedRef st;
     reorderRef := onReordered;
     flatRef := flatRef st;
     flatWrapLayout := flatWrapLayout st;
     scrollPos := scrollPos st;
     pan := pan st |}.

(** *** What a render passes to the [FlatList] (lines 337-358)

    [scrollEnabled={!activeKey.current}] comes before [{...rest}], so a
    [scrollEnabled] of the caller replaces it. *)
Definition scrollEnabled (st : State) : bool :=
  match rest_scrollEnabled props with
  | Some b => b
  | None => negb (truthy (activeKey st))
  end.

(** *** The event loop

    Every handler runs to completion before the next event is delivered. *)
Inductive Event :=
| ItemDragStart (item : T) (index : Z)
| ItemDragEnd
| ResponderGrant (g : GestureState)
| GrantMeasured (m : Measure)
| ResponderMove (g : GestureState)
| ResponderRelease
| ReorderSettled (o : Settled)
| Scrolled (x y : Qc)
| ContainerLayout
| LayoutMeasured (m : Measure)
| CellLayout (key : string) (layout : LayoutRect)
| PropsChanged (d : list T) (onReordered : bool).

Definition step (ev : Event) (st : State) : State * list Output :=
  match ev with
  | ItemDragStart item index => (onDragStart item index st, [])
  | ItemDragEnd => (onDragEnd_item st, [])
  | ResponderGrant g => onPanResponderGrant g st
  | GrantMeasured m => (onGrantMeasured m st, [])
  | ResponderMove g => onPanResponderMove g st
  | ResponderRelease =>
      let '(st', out, _) := onPanResponderRelease st in (st', out)
  | ReorderSettled o => (fst (onPanResponderRelease_resume o st), [])
  | Scrolled x y => onDragScroll x y st
  | ContainerLayout => onDragLayout st
  | LayoutMeasured m => (onLayoutMeasured m st, [])
  | CellLayout key layout => (onCellLayout key layout st, [])
  | PropsChanged d r => (onPropsChanged d r st, [])
  end.

(** The platform grants the responder only when a should-set predicate
    answered [true]. *)
Definition enabled (ev : Event) (st : State) : bool :=
  match ev with
  | ResponderGrant _ =>
      onStartShouldSetPanResponderCapture st || onStartShouldSetPanResponder st ||
      onMoveShouldSetPanResponder st || onMoveShouldSetPanResponderCapture st
  | _ => true
  end.

Fixpoint run (evs : list Event) (st : State) : State :=
  match evs with
  | [] => st
  | ev :: evs' => run evs' (fst (step ev st))
  end.

End DragList.

Arguments State : clear implicits.
Arguments Event : clear implicits.

(** ** [CellRendererComponent] (lines 374-469) *)

(** What [useDragListContext] gives a cell: the values the last render of
    [DragListImpl] passed to [DragListProvider] (lines 322-330). *)
Record DragListContext := mkContext {
  ctx_activeKey : option string;
  ctx_activeIndex : Z;
  ctx_panIndex : Z;
  ctx_layouts : gmap string PosExtent;
  ctx_horizontal : bool }.

Definition provide {T} (props : Props) (st : State T) : DragListContext :=
  {| ctx_activeKey := activeKey st;
     ctx_activeIndex := activeIndex st;
     ctx_panIndex := panIndex st;
     ctx_layouts := layouts st;
     ctx_horizontal := horizontal props |}.

(** Calls on the cell's [anim] value: [Animated.timing(anim, {toValue}).start()]
    and [anim.setValue]. *)
Inductive AnimCall :=
| Timing (toValue : Qc)
| SetValue (value : Qc).

(** The first effect (lines 391-417) of the cell with key [key] at [index]:
    the calls on [anim] and the argument of [setIsOffset]. *)
Definition displacementEffect (ctx : DragListContext) (key : string) (index : Z)
  : list AnimCall * bool :=
  let isActive := bool_decide (Some key = ctx_activeKey ctx) in
  let rest :=
    ((if negb (truthy (ctx_activeKey ctx)) then [SetValue 0%Qc] else []), false) in
  if truthy (ctx_activeKey ctx) && negb isActive then
    match ctx_activeKey ctx ≫= λ k, ctx_layouts ctx !! k with
    | Some l =>
        if (ctx_panIndex ctx <=? index) && (index <=? ctx_activeIndex ctx) then
          ([Timing (extent l)], true)
        else if (ctx_activeIndex ctx <=? index) && (index <=? ctx_panIndex ctx) then
          ([Timing (- extent l)%Qc], true)
        else rest
    | None => rest
    end
  else rest.

(** The second effect (lines 419-428), run when [isOffset] has changed. *)
Definition settleEffect (isOffset : bool) : list AnimCall :=
  if negb isOffset then [Timing 0%Qc] else [].

(** A cell: where [anim] is, or is heading to, and the [isOffset] state. *)
Record CellState := mkCell { anim : Qc; isOffset : bool }.

(** The last call on [anim] decides where it ends. *)
Definition animate (calls : list AnimCall) (a : Qc) : Qc :=
  foldl (λ _ c, match c with Timing v => v | SetValue v => v end) a calls.

(** The effects of a mounted cell after a render that changed a dependency
    of the first effect: the first effect runs, and the second one runs in
    the render that follows [setIsOffset] if [isOffset] changed. *)
Definition cellUpdate (ctx : DragListContext) (key : string) (index : Z)
    (c : CellState) : CellState :=
  let '(calls, off) := displacementEffect ctx key index in
  let a := animate calls (anim c) in
  if bool_decide (off = isOffset c)
  then {| anim := a; isOffset := off |}
  else {| anim := animate (settleEffect off) a; isOffset := off |}.

(** ** A concrete list, for examples

    Items are their own keys; the list is vertical and every optional
    callback is supplied. *)

Definition keyOf (item : string) (_ : Z) : string := item.

Definition vertical : Props :=
  {| horizontal := false; onDragBegin := true; onDragEnd := true;
     onHoverChanged := true; onScroll := true; onLayout := true;
     rest_scrollEnabled := None |}.

(** A key extractor that never yields the empty key. *)
Definition tagged (item : string) (_ : Z) : string := ("k" +:+ item)%string.

(** The same list with [scrollEnabled={true}] passed by the caller. *)
Definition scrollable : Props :=
  {| horizontal := false; onDragBegin := true; onDragEnd := true;
     onHoverChanged := true; onScroll := true; onLayout := true;
     rest_scrollEnabled := Some true |}.

Definition px (n : Z) : Qc := Qc_of_Z n.

(** A cell of height [h] laid out at offset [y]. *)
Definition cellAt (key : string) (y h : Z) : Event string :=
  CellLayout key (mkLayoutRect 0%Qc (px y) (px 300) (px h)).

(** A gesture that started at screen position [y] and has moved by [d]. *)
Definition gesture (y d : Z) : GestureState := mkGesture 0%Qc (px y) 0%Qc (px d).

Definition abc : list string := ["a"; "b"; "c"]%string.

(** Three measured cells of height 50 in a container of height 400. *)
Definition measured3 : State string :=
  run keyOf vertical
    [LayoutMeasured (mkMeasure 0 0 (px 300) (px 400) 0 0)%Qc;
     cellAt "a" 0 50; cellAt "b" 50 50; cellAt "c" 100 50]
    (initial abc true).

(** Item ["a"] has been picked up and the responder granted. *)
Definition dragging3 : State string :=
  run keyOf vertical
    [ItemDragStart "a"%string 0; ResponderGrant (gesture 25 0)]
    measured3.

(** The pointer has moved down by 100: ["a"] hovers over slot 2. *)
Definition hovering3 : State string :=
  run keyOf vertical [ResponderMove (gesture 25 100)] dragging3.

(** The pointer was released there and the reorder handler is outstanding. *)
Definition committing3 : State string :=
  run keyOf vertical [ResponderRelease] hovering3.

(** As [dragging3], but only cell ["a"] has reported its layout. *)
Definition partial3 : State string :=
  run keyOf vertical
    [LayoutMeasured (mkMeasure 0 0 (px 300) (px 400) 0 0)%Qc;
     cellAt "a" 0 50;
     ItemDragStart "a"%string 0; ResponderGrant (gesture 25 0)]
    (initial abc true).

(** As [dragging3], after the list was scrolled down by 100. *)
Definition scrolled3 : State string :=
  run keyOf vertical [Scrolled 0%Qc (px 100)] dragging3.

(** ** Traces, and what a render shows *)

Section Traces.

Context {T : Type}.
Variable keyExtractor : T → Z → string.
Variable props : Props.

(** The calls made while [run] handles the events. *)
Fixpoint trace (evs : list (Event T)) (st : State T) : list Output :=
  match evs with
  | [] => []
  | ev :: evs' =>
      (step keyExtractor props ev st).2 ++
      trace evs' (step keyExtractor props ev st).1
  end.

(** Every event of the list is [enabled] when it is delivered. *)
Fixpoint admissible (evs : list (Event T)) (st : State T) : bool :=
  match evs with
  | [] => true
  | ev :: evs' =>
      enabled ev st && admissible evs' (step keyExtractor props ev st).1
  end.

(** [isActive] of [renderDragItem] (line 256), for the item with key [key]. *)
Definition isActive (key : string) (st : State T) : bool :=
  bool_decide (Some key = activeKey st).

End Traces.

(** The session fields as [reset] leaves them. *)
Definition atRest {T} (st : State T) : Prop :=
  activeIndex st = -1 ∧ panIndex st = -1 ∧ pan st = 0%Qc ∧
  panGrantedRef st = false ∧ extra st = mkExtra None (-1).

(** A list of at most one item, with no active item. *)
Definition shortIdle {T} (st : State T) : Prop :=
  (length (data st) ≤ 1)%nat ∧ activeKey st = None ∧
  activeIndex st = panIndex st.

(** Exchanging the two axes of what the platform reports. *)
Definition transposeGesture (g : GestureState) : GestureState :=
  {| x0 := y0 g; y0 := x0 g; dx := dy g; dy := dx g |}.

Definition transposeMeasure (m : Measure) : Measure :=
  {| m_x := m_y m; m_y := m_x m; m_width := m_height m; m_height := m_width m;
     m_pageX := m_pageY m; m_pageY := m_pageX m |}.

Definition transposeRect (r : LayoutRect) : LayoutRect :=
  {| l_x := l_y r; l_y := l_x r; l_width := l_height r; l_height := l_width r |}.

Definition transpose {T} (ev : Event T) : Event T :=
  match ev with
  | ResponderGrant g => ResponderGrant (transposeGesture g)
  | GrantMeasured m => GrantMeasured (transposeMeasure m)
  | ResponderMove g => ResponderMove (transposeGesture g)
  | Scrolled x y => Scrolled y x
  | LayoutMeasured m => LayoutMeasured (transposeMeasure m)
  | CellLayout key layout => CellLayout key (transposeRect layout)
  | _ => ev
  end.

(** The same properties with the other orientation. *)
Definition flipAxis (p : Props) : Props :=
  {| horizontal := negb (horizontal p);
     onDragBegin := onDragBegin p;
     onDragEnd := onDragEnd p;
     onHoverChanged := onHoverChanged p;
     onScroll := onScroll p;
     onLayout := onLayout p;
     rest_scrollEnabled := rest_scrollEnabled p |}.

(** What [onCellLayout] stores for a cell (lines 436-438). *)
Definition axisLayout (props : Props) (layout : LayoutRect) : PosExtent :=
  if horizontal props
  then {| pos := l_x layout; extent := l_width layout |}
  else {| pos := l_y layout; extent := l_height layout |}.

(** The effects of a cell when it mounts: [anim] starts at 0 and [isOffset]
    at [false]; both effects run once, in order, with the [isOffset] of that
    first render.  The second effect runs again in the render that follows
    [setIsOffset(true)], where it does nothing. *)
Definition cellMount (ctx : DragListContext) (key : string) (index : Z)
  : CellState :=
  let '(calls, off) := displacementEffect ctx key index in
  {| anim := animate (settleEffect false) (animate calls 0%Qc);
     isOffset := off |}.

(** The pointer is at screen position 460, below every cell. *)
Definition below3 : State string :=
  run keyOf vertical [ResponderMove (gesture 25 435)] dragging3.

(** ** Properties *)

Section Resolver.

Context {T : Type}.
Variable keyExtractor : T → Z → string.
Variable lay : gmap string PosExtent.

Implicit Types (items : list T) (c : Qc) (start : Z).

Lemma scan_ge items c start : start ≤ scan keyExtractor lay c items start.
Proof.
  revert start. induction items as [|item items IH]; intros start; simpl.
  - lia.
  - destruct (lay !! keyExtractor item start) as [l|]; [|lia].
    case_decide; [|lia]. specialize (IH (start + 1)). lia.
Qed.

Lemma scan_le_length items c start :
  scan keyExtractor lay c items start ≤ start + Z.of_nat (length items).
Proof.
  revert start. induction items as [|item items IH]; intros start; simpl.
  - lia.
  - destruct (lay !! keyExtractor item start) as [l|]; [|lia].
    case_decide; [|lia]. specialize (IH (start + 1)). lia.
Qed.

(** The loop is monotone in the client position. *)
Lemma scan_mono items c1 c2 start :
  (c1 ≤ c2)%Qc →
  scan keyExtractor lay c1 items start ≤ scan keyExtractor lay c2 items start.
Proof.
  intros Hc. revert start.
  induction items as [|item items IH]; intros start; simpl; [lia|].
  destruct (lay !! keyExtractor item start) as [l|]; [|lia].
  destruct (decide (pos l + extent l < c1)%Qc) as [H1|H1].
  - rewrite decide_True by (eapply Qclt_le_trans; eauto). apply IH.
  - case_decide; [|lia].
    pose proof (scan_ge items c2 (start + 1)). lia.
Qed.

Lemma scan_stops items c start (n : nat) item :
  items !! n = Some item →
  stopsAt keyExtractor lay c item (start + Z.of_nat n) →
  scan keyExtractor lay c items start ≤ start + Z.of_nat n.
Proof.
  revert start n. induction items as [|x items IH]; intros start n; [done|].
  destruct n as [|n]; simpl.
  - intros [= ->]. unfold stopsAt. rewrite Z.add_0_r.
    destruct (lay !! keyExtractor item start) as [l|]; [|lia].
    intros Hn. rewrite decide_False by done. lia.
  - intros Hit Hstop.
    destruct (lay !! keyExtractor x start) as [l|]; [|lia].
    case_decide; [|lia].
    specialize (IH (start + 1) n Hit).
    replace (start + 1 + Z.of_nat n) with (start + Z.of_nat (S n)) in IH by lia.
    specialize (IH Hstop). lia.
Qed.

Lemma scan_passes items c start (n : nat) :
  (∀ (j : nat) item, (j < n)%nat → items !! j = Some item →
                     passes keyExtractor lay c item (start + Z.of_nat j)) →
  (n ≤ length items)%nat →
  start + Z.of_nat n ≤ scan keyExtractor lay c items start.
Proof.
  revert start n. induction items as [|x items IH]; intros start n Hp Hn.
  - simpl in *. lia.
  - destruct n as [|n]; [pose proof (scan_ge (x :: items) c start); lia|].
    simpl. destruct (Hp 0%nat x) as (l & Hl & Hlt); [lia|done|].
    rewrite Z.add_0_r in Hl. rewrite Hl, decide_True by done.
    specialize (IH (start + 1) n).
    replace (start + Z.of_nat (S n)) with (start + 1 + Z.of_nat n) by lia.
    apply IH; [|simpl in Hn; lia].
    intros j item Hj Hit.
    replace (start + 1 + Z.of_nat j) with (start + Z.of_nat (S j)) by lia.
    apply Hp; [lia|done].
Qed.

(** The loop ends at the first item it does not pass. *)
Lemma scan_first_stop items c (n : nat) item :
  items !! n = Some item →
  stopsAt keyExtractor lay c item (Z.of_nat n) →
  (∀ (j : nat) x, (j < n)%nat → items !! j = Some x → passes keyExtractor lay c x (Z.of_nat j)) →
  scan keyExtractor lay c items 0 = Z.of_nat n.
Proof.
  intros Hit Hstop Hpass.
  pose proof (scan_stops items c 0 n item Hit) as Hle.
  pose proof (scan_passes items c 0 n) as Hge.
  rewrite !Z.add_0_l in *.
  specialize (Hle Hstop).
  assert (n ≤ length items)%nat
    by (apply Nat.lt_le_incl, lookup_lt_is_Some; eauto).
  assert (Z.of_nat n ≤ scan keyExtractor lay c items 0); [|lia].
  apply Hge; [|done]. intros j x Hj Hx. rewrite Z.add_0_l. by apply Hpass.
Qed.

End Resolver.

Section IndexResolver.

Context {T : Type}.
Variable keyExtractor : T → Z → string.

Implicit Types (st : State T) (c : Qc).

(** C7. On a list whose items all have a [layouts] entry, the resolved index
    is monotone in the client position: [c1 < c2] implies that the index
    resolved for [c1] is at most the index resolved for [c2]. *)
Theorem resolveIndex_monotone st c1 c2 :
  fullyMeasured keyExtractor st →
  (c1 < c2)%Qc →
  resolveIndex keyExtractor st c1 ≤ resolveIndex keyExtractor st c2.
Proof.
  intros _ Hlt. unfold resolveIndex.
  apply scan_mono. by apply Qclt_le_weak.
Qed.

(** C4, as the code has it.  When [c] is exactly the trailing boundary
    [pos + extent] of the item at index [i], the loop does not advance past
    that item: the resolved index is at most [i], and it is [i] itself when
    every earlier item is measured with its trailing boundary strictly below
    [c].  The boundary belongs to the item it ends. *)
Theorem resolveIndex_at_boundary st (i : nat) item l :
  dataRef st !! i = Some item →
  layouts st !! keyExtractor item (Z.of_nat i) = Some l →
  let c := (pos l + extent l)%Qc in
  resolveIndex keyExtractor st c ≤ Z.of_nat i ∧
  ((∀ (j : nat) x, (j < i)%nat → dataRef st !! j = Some x →
       passes keyExtractor (layouts st) c x (Z.of_nat j)) →
   resolveIndex keyExtractor st c = Z.of_nat i).
Proof.
  intros Hit Hl c.
  assert (stopsAt keyExtractor (layouts st) c item (Z.of_nat i)) as Hstop.
  { unfold stopsAt. rewrite Hl. apply Qcle_not_lt, Qcle_refl. }
  split.
  - pose proof (scan_stops keyExtractor (layouts st) (dataRef st) c 0 i item Hit)
      as H.
    rewrite Z.add_0_l in H. by apply H.
  - intros Hpass. by eapply scan_first_stop.
Qed.

End IndexResolver.

Section Gesture.

Context {T : Type}.
Variable keyExtractor : T → Z → string.
Variable props : Props.

Implicit Types (st : State T) (g : GestureState) (ev : Event T).

(** While a drag is active and the dragged item is measured, a move stores
    the resolved index in [panIndex]. *)
Lemma move_panIndex st g key l :
  truthy (activeKey st) = true →
  activeKey st = Some key →
  layouts st !! key = Some l →
  panIndex (fst (onPanResponderMove keyExtractor props g st)) =
    resolveIndex keyExtractor st (clientPosOf props g st).
Proof.
  intros Ht Hk Hl. unfold onPanResponderMove.
  rewrite Ht, Hk. cbn [mbind option_bind]. by rewrite Hl.
Qed.

(** C6, as the code has it.  When the loop reaches an item without a
    [layouts] entry (every earlier item being measured with its trailing
    boundary strictly below the client position), it halts there and
    [panIndex] becomes the index of that item. *)
Theorem move_halts_at_unmeasured st g key l (i : nat) item :
  truthy (activeKey st) = true →
  activeKey st = Some key →
  layouts st !! key = Some l →
  dataRef st !! i = Some item →
  layouts st !! keyExtractor item (Z.of_nat i) = None →
  (∀ (j : nat) x, (j < i)%nat → dataRef st !! j = Some x →
     passes keyExtractor (layouts st) (clientPosOf props g st) x (Z.of_nat j)) →
  panIndex (fst (onPanResponderMove keyExtractor props g st)) = Z.of_nat i.
Proof.
  intros Ht Hk Hl Hit Hnone Hpass.
  rewrite (move_panIndex st g key l) by done.
  unfold resolveIndex. eapply scan_first_stop; eauto.
  unfold stopsAt. by rewrite Hnone.
Qed.

(** No handler but the continuation of the release clears the latch. *)
Lemma step_keeps_latch st ev :
  (∀ o, ev ≠ ReorderSettled o) →
  reorderingRef st = true →
  reorderingRef (fst (step keyExtractor props ev st)) = true.
Proof.
  intros Hev Hl. destruct ev; simpl; try done.
  - unfold onDragStart. by case_match.
  - unfold onDragEnd_item. by repeat case_match.
  - unfold onPanResponderMove. by repeat case_match.
  - unfold onPanResponderRelease. by destruct (shouldReorder st).
  - by destruct (Hev o).
Qed.

Lemma run_keeps_latch evs st :
  Forall (λ ev, ∀ o, ev ≠ ReorderSettled o) evs →
  reorderingRef st = true →
  reorderingRef (run keyExtractor props evs st) = true.
Proof.
  intros Hevs. revert st.
  induction Hevs as [|ev evs Hev _ IH]; intros st Hl; simpl; [done|].
  apply IH. by apply step_keeps_latch.
Qed.

Lemma latch_refuses_grant st g :
  reorderingRef st = true → enabled (ResponderGrant g) st = false.
Proof.
  intros Hl. simpl.
  unfold onStartShouldSetPanResponderCapture, onStartShouldSetPanResponder,
    onMoveShouldSetPanResponder, onMoveShouldSetPanResponderCapture.
  rewrite Hl. by destruct (truthy (activeKey st)).
Qed.

(** C1, as the code has it.  While the latch [reorderingRef] is held, every
    should-set predicate of the pan responder answers [false], so no drag is
    captured, and this stays so after any events other than the settling of
    the handler.  The per-item [onDragStart] does not test the latch: on a
    list of more than one item it stores the new key and index in
    [activeKey], [activeIndex] and [panIndex], leaving the latch as it is.
    The continuation of the release clears the latch however the handler
    settles. *)
Theorem latch_blocks_capture_not_start st :
  reorderingRef st = true →
  (∀ evs g, Forall (λ ev, ∀ o, ev ≠ ReorderSettled o) evs →
     reorderingRef (run keyExtractor props evs st) = true ∧
     enabled (ResponderGrant g) (run keyExtractor props evs st) = false) ∧
  (∀ item index,
     1 < Z.of_nat (length (data st)) →
     let st' := onDragStart keyExtractor item index st in
     activeKey st' = Some (keyExtractor item index) ∧
     activeIndex st' = index ∧ panIndex st' = index ∧
     reorderingRef st' = true) ∧
  (∀ o, reorderingRef (fst (onPanResponderRelease_resume o st)) = false).
Proof.
  intros Hl. split; [|split].
  - intros evs g Hevs.
    assert (reorderingRef (run keyExtractor props evs st) = true) by by apply run_keeps_latch.
    split; [done|]. by apply latch_refuses_grant.
  - intros item index Hlen. unfold onDragStart.
    apply Z.ltb_lt in Hlen. by rewrite Hlen.
  - by intros [].
Qed.

Lemma shouldReorder_spec st : shouldReorder st = true ↔ reorderable st.
Proof.
  unfold shouldReorder, reorderable.
  rewrite andb_true_iff, !negb_true_iff, andb_false_iff.
  rewrite Z.eqb_neq, Z.eqb_neq, Z.ltb_ge. lia.
Qed.

(** C3. With a reorder handler supplied, a release calls it exactly once,
    with [(activeIndex, panIndex)], if and only if [activeIndex] differs from
    [panIndex] and it is not the last item dragged past the end; in the two
    excluded cases it is not called at all. *)
Theorem release_reorders_iff st :
  reorderRef st = true →
  let out := (onPanResponderRelease props st).1.2 in
  (reorderable st ↔ reorderCalls out = [(activeIndex st, panIndex st)]) ∧
  (¬ reorderable st → reorderCalls out = []).
Proof.
  intros Hr out. subst out. unfold onPanResponderRelease.
  rewrite Hr. rewrite <- shouldReorder_spec.
  destruct (shouldReorder st); simpl; destruct (onDragEnd props); simpl;
    split; try split; try done.
Qed.

(** A failed handler skips [reset]: the continuation only clears the latch,
    while a handler that succeeds is followed by [reset]. *)
Lemma resume_rejected st :
  onPanResponderRelease_resume Rejected st = (set_reorderingRef false st, Threw).
Proof. done. Qed.

Lemma resume_fulfilled st :
  onPanResponderRelease_resume Fulfilled st =
    (reset (set_reorderingRef false st), Returned).
Proof. done. Qed.

(** C9. The measurement taken on grant writes only the [pos] of
    [flatWrapLayout]: its [extent] is what it was, whatever the measurement
    reads.  The grant handler itself does not write the frame, and no event
    other than the measurement of the container layout changes [extent]. *)
Theorem grant_measure_keeps_extent st m :
  let st' := onGrantMeasured props m st in
  extent (flatWrapLayout st') = extent (flatWrapLayout st) ∧
  pos (flatWrapLayout st') = (if horizontal props then m_pageX m else m_pageY m) ∧
  (∀ g, flatWrapLayout (fst (onPanResponderGrant props g st)) = flatWrapLayout st) ∧
  (∀ ev, (∀ m', ev ≠ LayoutMeasured m') →
     extent (flatWrapLayout (fst (step keyExtractor props ev st))) =
     extent (flatWrapLayout st)).
Proof.
  repeat split; try done.
  intros ev Hev. destruct ev; simpl; try done.
  - unfold onDragStart. by case_match.
  - unfold onDragEnd_item. by repeat case_match.
  - unfold onPanResponderMove. by repeat case_match.
  - unfold onPanResponderRelease. by destruct (shouldReorder st).
  - by destruct o.
  - by destruct (Hev m0).
Qed.

(** The auto-scroll request, case by case. *)
Lemma autoScroll_forward st wrapPos e :
  ¬ (wrapPos - half e < 0)%Qc →
  (extent (flatWrapLayout st) < wrapPos + half e)%Qc →
  flatRef st = true →
  (scrollPos st + e)%Qc ≠ 0%Qc →
  autoScroll wrapPos e st =
    [ScrollToOffset true (scrollPos st + (scrollPos st + e))%Qc].
Proof.
  intros Hlead Htrail Hflat Hnz. unfold autoScroll, scrollOffset.
  rewrite (decide_False (P := (_ < 0)%Qc)) by done.
  rewrite (decide_True (P := (_ < _ + _)%Qc)) by done.
  by rewrite decide_True, Hflat by done.
Qed.

Lemma autoScroll_backward st wrapPos e :
  (wrapPos - half e < 0)%Qc →
  flatRef st = true →
  let back := if decide (e ≤ scrollPos st)%Qc then e else scrollPos st in
  autoScroll wrapPos e st =
    if decide (back = 0%Qc) then []
    else [ScrollToOffset true (scrollPos st + - back)%Qc].
Proof.
  intros Hlead Hflat back. unfold autoScroll, scrollOffset. subst back.
  rewrite (decide_True (P := (_ < 0)%Qc)) by done.
  assert (∀ x : Qc, (- x)%Qc = 0%Qc ↔ x = 0%Qc) as Hopp.
  { intros x. split; [|by intros ->].
    intros H. rewrite <- (Qcopp_involutive x), H. done. }
  destruct (decide (e ≤ scrollPos st)%Qc).
  - destruct (decide (e = 0%Qc)) as [->|Hne].
    + by rewrite decide_False by (by intros []).
    + rewrite decide_True by (by rewrite Hopp). by rewrite Hflat.
  - destruct (decide (scrollPos st = 0%Qc)) as [Hz|Hne].
    + rewrite decide_False; [done|]. rewrite Hz. by intros [].
    + rewrite decide_True by (by rewrite Hopp). by rewrite Hflat.
Qed.

Lemma autoScroll_inside st wrapPos e :
  ¬ (wrapPos - half e < 0)%Qc →
  ¬ (extent (flatWrapLayout st) < wrapPos + half e)%Qc →
  autoScroll wrapPos e st = [].
Proof.
  intros Hlead Htrail. unfold autoScroll, scrollOffset.
  rewrite (decide_False (P := (_ < 0)%Qc)) by done.
  rewrite (decide_False (P := (_ < _ + _)%Qc)) by done.
  by rewrite decide_False by (by intros []).
Qed.

Lemma move_activeKey st g :
  activeKey (fst (onPanResponderMove keyExtractor props g st)) = activeKey st.
Proof. unfold onPanResponderMove. by repeat case_match. Qed.

(** [activeKey] is [null] or a non-empty key. *)
Lemma step_activeKey_truthy st ev :
  (∀ item index, keyExtractor item index ≠ EmptyString) →
  (activeKey st = None ∨ truthy (activeKey st) = true) →
  let st' := fst (step keyExtractor props ev st) in
  activeKey st' = None ∨ truthy (activeKey st') = true.
Proof.
  intros Hkey Hinv. destruct ev; simpl; try done.
  - unfold onDragStart. case_match; [|done]. simpl. right.
    specialize (Hkey item index). by destruct (keyExtractor item index).
  - unfold onDragEnd_item. destruct (activeKey st) eqn:Hk; [|by left].
    destruct (panGrantedRef st); simpl; [by rewrite Hk|by left].
  - by rewrite move_activeKey.
  - unfold onPanResponderRelease. destruct (shouldReorder st); simpl; auto.
  - destruct o; simpl; auto.
Qed.

Lemma run_activeKey_truthy evs st :
  (∀ item index, keyExtractor item index ≠ EmptyString) →
  (activeKey st = None ∨ truthy (activeKey st) = true) →
  activeKey (run keyExtractor props evs st) = None ∨
  truthy (activeKey (run keyExtractor props evs st)) = true.
Proof.
  intros Hkey. revert st.
  induction evs as [|ev evs IH]; intros st Hinv; simpl; [done|].
  apply IH. by apply step_activeKey_truthy.
Qed.

(** C10, as the code has it.  When the caller passes no [scrollEnabled] of
    its own and no key is the empty string, then in every state reached from
    the first render [scrollEnabled] is [false] exactly when [activeKey] is
    not [null]; and a handler that turns [scrollEnabled] from [false] to
    [true] has reset the session. *)
Theorem scrollEnabled_iff_idle d r evs ev :
  rest_scrollEnabled props = None →
  (∀ item index, keyExtractor item index ≠ EmptyString) →
  let st := run keyExtractor props evs (initial d r) in
  let st' := fst (step keyExtractor props ev st) in
  (scrollEnabled props st = false ↔ activeKey st ≠ None) ∧
  (scrollEnabled props st = false → scrollEnabled props st' = true →
   activeKey st' = None ∧ activeIndex st' = -1 ∧ panIndex st' = -1 ∧
   pan st' = 0%Qc ∧ panGrantedRef st' = false).
Proof.
  intros Hrest Hkey st st'. unfold scrollEnabled. rewrite Hrest.
  assert (activeKey st = None ∨ truthy (activeKey st) = true) as Hinv.
  { apply run_activeKey_truthy; [done|]. by left. }
  split.
  - destruct Hinv as [Hn|Ht].
    + rewrite Hn. simpl. split; [done|]. by intros [].
    + rewrite Ht. simpl. split; [|done].
      intros _ Hn. by rewrite Hn in Ht.
  - rewrite !negb_false_iff, negb_true_iff. subst st'. clear Hinv.
    generalize dependent st. intros st.
    destruct ev; simpl; try congruence.
    + unfold onDragStart. case_match; [|congruence]. simpl.
      specialize (Hkey item index). destruct (keyExtractor item index); done.
    + unfold onDragEnd_item. destruct (activeKey st) eqn:Hk; [|congruence].
      destruct (panGrantedRef st); simpl; [|done].
      rewrite Hk. simpl. congruence.
    + rewrite move_activeKey. congruence.
    + unfold onPanResponderRelease.
      destruct (shouldReorder st); simpl; [congruence|done].
    + destruct o; simpl; [done|congruence].
Qed.

End Gesture.

Section Displacement.

Implicit Types (ctx : DragListContext) (key : string) (index : Z) (c : CellState).

(** What [cellUpdate] leaves in [anim], from the outcome of the first
    effect: a displaced cell heads for the value of its [Timing] call, a cell
    that is not displaced ends at zero. *)
Lemma cellUpdate_displaced ctx key index c v :
  displacementEffect ctx key index = ([Timing v], true) →
  cellUpdate ctx key index c = {| anim := v; isOffset := true |}.
Proof.
  intros He. unfold cellUpdate. rewrite He.
  by destruct (isOffset c).
Qed.

Lemma cellUpdate_rest ctx key index c calls :
  displacementEffect ctx key index = (calls, false) →
  (isOffset c = false → animate calls (anim c) = 0%Qc) →
  cellUpdate ctx key index c = {| anim := 0%Qc; isOffset := false |}.
Proof.
  intros He Ha. unfold cellUpdate. rewrite He.
  destruct (isOffset c); simpl; [done|]. by rewrite Ha.
Qed.

(** The first effect, and where a cell that was mounted before ends.  For
    a cell that is not the active one, during a drag whose active
    item is measured: at an index with [panIndex ≤ index ≤ activeIndex] the
    effect animates to [+extent] of the active item; otherwise, at an index
    with [activeIndex ≤ index ≤ panIndex], to [-extent]; at every other index
    nothing is started, [isOffset] becomes false and the cell settles at 0.
    When no drag is active the effect sets the value to 0 with [setValue],
    not with an animation. *)
Theorem displacement_target :
  (∀ ctx key index k l c,
     truthy (ctx_activeKey ctx) = true →
     ctx_activeKey ctx = Some k →
     key ≠ k →
     ctx_layouts ctx !! k = Some l →
     (isOffset c = false → anim c = 0%Qc) →
     let lo := ctx_panIndex ctx in
     let hi := ctx_activeIndex ctx in
     (lo ≤ index ≤ hi →
        displacementEffect ctx key index = ([Timing (extent l)], true) ∧
        anim (cellUpdate ctx key index c) = extent l) ∧
     (¬ lo ≤ index ≤ hi → hi ≤ index ≤ lo →
        displacementEffect ctx key index = ([Timing (- extent l)%Qc], true) ∧
        anim (cellUpdate ctx key index c) = (- extent l)%Qc) ∧
     (¬ lo ≤ index ≤ hi → ¬ hi ≤ index ≤ lo →
        displacementEffect ctx key index = ([], false) ∧
        settleEffect false = [Timing 0%Qc] ∧
        anim (cellUpdate ctx key index c) = 0%Qc)) ∧
  (∀ ctx key index c,
     truthy (ctx_activeKey ctx) = false →
     displacementEffect ctx key index = ([SetValue 0%Qc], false) ∧
     anim (cellUpdate ctx key index c) = 0%Qc).
Proof.
  split.
  - intros ctx key index k l c Ht Hk Hne Hl Hinv lo hi.
    assert (bool_decide (Some key = ctx_activeKey ctx) = false) as Hact.
    { apply bool_decide_eq_false. rewrite Hk. congruence. }
    assert (displacementEffect ctx key index =
      if (lo <=? index) && (index <=? hi) then ([Timing (extent l)], true)
      else if (hi <=? index) && (index <=? lo)
           then ([Timing (- extent l)%Qc], true)
           else ([], false)) as He.
    { unfold displacementEffect. rewrite Ht, Hact, Hk. simpl. by rewrite Hl. }
    split; [|split].
    + intros Hin.
      assert ((lo <=? index) && (index <=? hi) = true) as Hb
        by (apply andb_true_iff; split; apply Z.leb_le; lia).
      rewrite Hb in He. split; [done|].
      by rewrite (cellUpdate_displaced _ _ _ _ _ He).
    + intros Hnot Hin.
      assert ((lo <=? index) && (index <=? hi) = false) as Hb1
        by (apply andb_false_iff; rewrite !Z.leb_gt; lia).
      assert ((hi <=? index) && (index <=? lo) = true) as Hb2
        by (apply andb_true_iff; split; apply Z.leb_le; lia).
      rewrite Hb1, Hb2 in He. split; [done|].
      by rewrite (cellUpdate_displaced _ _ _ _ _ He).
    + intros Hnot1 Hnot2.
      assert ((lo <=? index) && (index <=? hi) = false) as Hb1
        by (apply andb_false_iff; rewrite !Z.leb_gt; lia).
      assert ((hi <=? index) && (index <=? lo) = false) as Hb2
        by (apply andb_false_iff; rewrite !Z.leb_gt; lia).
      rewrite Hb1, Hb2 in He. repeat split; [done|].
      by rewrite (cellUpdate_rest _ _ _ _ _ He).
  - intros ctx key index c Ht.
    assert (displacementEffect ctx key index = ([SetValue 0%Qc], false)) as He.
    { unfold displacementEffect. by rewrite Ht. }
    split; [done|]. by rewrite (cellUpdate_rest _ _ _ _ _ He).
Qed.

End Displacement.

(** ** The concrete list *)

Section Examples.

Lemma measured3_fullyMeasured : fullyMeasured keyOf measured3.
Proof.
  intros i item Hi. change (dataRef measured3) with abc in Hi.
  destruct i as [|[|[|i]]]; simplify_eq/=; eexists; vm_compute; reflexivity.
Qed.

(** The scenario of three cells of height 50: positions 40 and 120 resolve
    to slots 0 and 2. *)
Lemma resolveIndex_monotone_witness :
  (px 40 < px 120)%Qc ∧
  resolveIndex keyOf measured3 (px 40) ≤ resolveIndex keyOf measured3 (px 120).
Proof.
  split; [reflexivity|].
  apply (resolveIndex_monotone keyOf measured3 (px 40) (px 120)).
  - exact measured3_fullyMeasured.
  - reflexivity.
Defined.

(** C4 fails as worded: with cells ["a"] at [0, 50) and ["b"] at [50, 100),
    the position 50 = pos + extent of ["a"] resolves to 0, the index of
    ["a"], not to the next index. *)
Lemma resolveIndex_boundary_not_next :
  ¬ (∀ (st : State string) (i : nat) item l,
       fullyMeasured keyOf st →
       dataRef st !! i = Some item →
       layouts st !! keyOf item (Z.of_nat i) = Some l →
       resolveIndex keyOf st (pos l + extent l)%Qc = Z.of_nat i + 1).
Proof.
  intros H.
  specialize (H measured3 0%nat "a"%string (mkPosExtent (px 0) (px 50))
                measured3_fullyMeasured).
  discriminate H; reflexivity.
Qed.

Lemma resolveIndex_at_boundary_witness :
  resolveIndex keyOf measured3 (px 50 + px 50)%Qc = 1.
Proof.
  pose proof (resolveIndex_at_boundary keyOf measured3 1%nat "b"%string
                (mkPosExtent (px 50) (px 50))) as H.
  simpl in H. apply H; [reflexivity|reflexivity|].
  intros j x Hj Hx. destruct j as [|j]; [|lia].
  change (dataRef measured3) with abc in Hx. simplify_eq/=.
  exists (mkPosExtent (px 0) (px 50)). split; reflexivity.
Defined.

(** C6 fails as worded: with only ["a"] measured, a move to client position
    120 passes ["a"], halts at the unmeasured ["b"], and [panIndex] goes from
    0 to 1 instead of keeping its value. *)
Lemma move_unmeasured_changes_panIndex :
  ¬ (∀ (st : State string) g key l (i : nat) item,
       truthy (activeKey st) = true →
       activeKey st = Some key →
       layouts st !! key = Some l →
       dataRef st !! i = Some item →
       layouts st !! keyOf item (Z.of_nat i) = None →
       (∀ (j : nat) x, (j < i)%nat → dataRef st !! j = Some x →
          passes keyOf (layouts st) (clientPosOf vertical g st) x (Z.of_nat j)) →
       panIndex (fst (onPanResponderMove keyOf vertical g st)) = panIndex st).
Proof.
  intros H.
  specialize (H partial3 (gesture 25 95) "a"%string
                (mkPosExtent (px 0) (px 50)) 1%nat "b"%string).
  assert (panIndex (onPanResponderMove keyOf vertical (gesture 25 95) partial3).1
          = 1) as Hnew by reflexivity.
  rewrite Hnew in H. discriminate H; try reflexivity.
  intros j x Hj Hx. destruct j as [|j]; [|lia].
  change (dataRef partial3) with abc in Hx. simplify_eq/=.
  exists (mkPosExtent (px 0) (px 50)). split; reflexivity.
Qed.

Lemma move_halts_at_unmeasured_witness :
  panIndex (fst (onPanResponderMove keyOf vertical (gesture 25 95) partial3)) = 1.
Proof.
  apply (move_halts_at_unmeasured keyOf vertical partial3 (gesture 25 95)
           "a"%string (mkPosExtent (px 0) (px 50)) 1%nat "b"%string);
    try reflexivity.
  intros j x Hj Hx. destruct j as [|j]; [|lia].
  change (dataRef partial3) with abc in Hx. simplify_eq/=.
  exists (mkPosExtent (px 0) (px 50)). split; reflexivity.
Defined.

(** C1 fails as worded: while the handler of the drag of ["a"] is
    outstanding, [onDragStart] on ["b"] overwrites the session. *)
Lemma onDragStart_not_ignored_under_latch :
  ¬ (∀ (st : State string) item index,
       reorderingRef st = true →
       let st' := onDragStart keyOf item index st in
       activeKey st' = activeKey st ∧
       activeIndex st' = activeIndex st ∧
       panIndex st' = panIndex st).
Proof.
  intros H.
  destruct (H committing3 "b"%string 1 eq_refl) as [Hk _].
  discriminate Hk.
Qed.

Lemma latch_blocks_capture_not_start_witness :
  reorderingRef committing3 = true ∧
  activeKey (onDragStart keyOf "b"%string 1 committing3) = Some "b"%string ∧
  enabled (ResponderGrant (gesture 75 0))
    (run keyOf vertical [ItemDragStart "b"%string 1] committing3) = false.
Proof.
  pose proof (latch_blocks_capture_not_start keyOf vertical committing3 eq_refl)
    as (Hrun & Hstart & _).
  split; [reflexivity|]. split.
  - apply (Hstart "b"%string 1). reflexivity.
  - apply (Hrun [ItemDragStart "b"%string 1] (gesture 75 0)).
    repeat constructor. intros o. discriminate.
Defined.

(** C2 on the code: ["a"] was dragged from slot 0 to slot 2 and the handler
    rejects.  [onDragEnd] was called, the handler was called once, the latch
    is cleared and the rejection leaves the release handler; but [reset] is
    not reached, and the session is as the drag left it. *)
Theorem release_rejected_skips_reset :
  let '(st1, out, suspended) := onPanResponderRelease vertical hovering3 in
  let '(st2, completion) := onPanResponderRelease_resume Rejected st1 in
  out = [CallDragEnd; CallReordered 0 2] ∧ suspended = true ∧
  reorderingRef st1 = true ∧
  completion = Threw ∧ reorderingRef st2 = false ∧
  activeKey st2 = Some "a"%string ∧ activeIndex st2 = 0 ∧ panIndex st2 = 2 ∧
  panGrantedRef st2 = true ∧ pan st2 = px 100 ∧
  scrollEnabled vertical st2 = false.
Proof.
  vm_compute. repeat split; try reflexivity.
  by apply Qc_is_canon.
Qed.

Lemma release_reorders_iff_witness :
  reorderCalls (onPanResponderRelease vertical hovering3).1.2 = [(0, 2)].
Proof.
  pose proof (release_reorders_iff vertical hovering3 eq_refl) as [Hiff _].
  apply Hiff. split; [discriminate|].
  intros [Hlast _]. discriminate Hlast.
Defined.

(** C5 on the code: the list is scrolled to 100, the dragged cell is 50
    high, and the pointer is 10 above the bottom of the 400 high container.
    The request goes to offset 250 = 100 + (100 + 50), not to 150. *)
Theorem autoScroll_forward_overshoots :
  scrollPos scrolled3 = px 100 ∧
  (onPanResponderMove keyOf vertical (gesture 390 0) scrolled3).2 =
    [ScrollToOffset true (px 250); CallHoverChanged 3] ∧
  px 250 ≠ (scrollPos scrolled3 + px 50)%Qc.
Proof.
  split; [reflexivity|]. split.
  - apply (bool_decide_unpack _). vm_compute. reflexivity.
  - apply (bool_decide_unpack _). vm_compute. reflexivity.
Qed.

(** C8 on the code: the cell of ["b"], at index 1, mounts while ["a"] is
    dragged from slot 0 to slot 2.  The first effect starts the animation to
    -50 and sets [isOffset]; the second effect, which runs after it with the
    [isOffset] of the first render, starts the animation to 0.  The cell is
    marked as offset ("whether anim != 0", line 385) and ends at 0, not at
    -50. *)
Theorem displacement_lost_on_mount :
  let ctx := provide vertical hovering3 in
  ctx_activeKey ctx = Some "a"%string ∧
  ctx_activeIndex ctx = 0 ∧ ctx_panIndex ctx = 2 ∧
  ctx_layouts ctx !! "a"%string = Some (mkPosExtent (px 0) (px 50)) ∧
  displacementEffect ctx "b"%string 1 = ([Timing (- px 50)%Qc], true) ∧
  settleEffect false = [Timing 0%Qc] ∧
  cellMount ctx "b"%string 1 = {| anim := 0%Qc; isOffset := true |} ∧
  anim (cellMount ctx "b"%string 1) ≠ (- px 50)%Qc.
Proof.
  repeat split; try reflexivity.
  apply (bool_decide_unpack _). vm_compute. reflexivity.
Qed.

Lemma displacement_target_witness :
  displacementEffect (provide vertical hovering3) "b"%string 1 =
    ([Timing (- px 50)%Qc], true).
Proof.
  assert ("b"%string ≠ "a"%string) as Hne by discriminate.
  pose proof (proj1 displacement_target (provide vertical hovering3)
                "b"%string 1 "a"%string (mkPosExtent (px 0) (px 50))
                (mkCell 0%Qc false) eq_refl eq_refl Hne eq_refl (λ _, eq_refl))
    as (_ & Hback & _).
  apply Hback.
  - intros [Hlo _]. by apply Hlo.
  - split; discriminate.
Defined.

(** A grant-time measurement reading height 0 leaves the extent at 400. *)
Lemma grant_measure_keeps_extent_witness :
  extent (flatWrapLayout
    (step keyOf vertical (GrantMeasured (mkMeasure 0 0 0 0 0 (px 80))%Qc)
       dragging3).1) = px 400.
Proof.
  pose proof (grant_measure_keeps_extent keyOf vertical dragging3
                (mkMeasure 0 0 0 0 0 (px 80))%Qc) as (_ & _ & _ & Hev).
  rewrite Hev; [reflexivity|]. intros m'. discriminate.
Defined.

(** C10 fails as worded: a caller's [scrollEnabled={true}] comes after the
    component's own in the properties of the list and replaces it. *)
Lemma scrollEnabled_overridden :
  ¬ (∀ props (st : State string),
       activeKey st ≠ None → scrollEnabled props st = false).
Proof.
  intros H. specialize (H scrollable dragging3).
  discriminate H. discriminate.
Qed.

Lemma scrollEnabled_iff_idle_witness :
  let st := run tagged vertical [ItemDragStart "a"%string 0] (initial abc true) in
  scrollEnabled vertical st = false ∧
  activeKey (step tagged vertical ItemDragEnd st).1 = None.
Proof.
  pose proof (scrollEnabled_iff_idle tagged vertical abc true
                [ItemDragStart "a"%string 0] ItemDragEnd eq_refl) as H.
  simpl in H. destruct H as [Hiff Hreset]; [done|].
  split; [by apply Hiff|]. by apply Hreset.
Defined.

End Examples.

(** ** Further properties of the handlers *)

Section ResolverFacts.

Context {T : Type}.
Variable keyExtractor : T → Z → string.

Implicit Types (st : State T) (c : Qc) (items : list T).

(** Every item before the index where the loop ends was passed, and the
    item at that index, if there is one, was not. *)
Lemma scan_sound lay items c start :
  let r := scan keyExtractor lay c items start in
  (∀ (j : nat) item, start + Z.of_nat j < r → items !! j = Some item →
     passes keyExtractor lay c item (start + Z.of_nat j)) ∧
  (∀ (j : nat) item, start + Z.of_nat j = r → items !! j = Some item →
     stopsAt keyExtractor lay c item r).
Proof.
  revert start. induction items as [|x items IH]; intros start; simpl.
  - split; intros j item _ Hj; by rewrite lookup_nil in Hj.
  - unfold stopsAt at 1.
    destruct (lay !! keyExtractor x start) as [l|] eqn:Hl.
    + destruct (decide (pos l + extent l < c)%Qc) as [Hlt|Hnlt].
      * destruct (IH (start + 1)) as [IH1 IH2].
        pose proof (scan_ge keyExtractor lay items c (start + 1)) as Hge.
        split; intros j item Hj Hit.
        -- destruct j as [|j].
           ++ simpl in Hit. simplify_eq. rewrite Z.add_0_r. by exists l.
           ++ simpl in Hit.
              replace (start + Z.of_nat (S j)) with (start + 1 + Z.of_nat j)
                in * by lia.
              by apply IH1.
        -- destruct j as [|j]; [lia|]. simpl in Hit.
           apply (IH2 j); [lia|done].
      * split; intros j item Hj Hit; [lia|].
        destruct j as [|j]; [|lia]. simpl in Hit. simplify_eq.
        unfold stopsAt. by rewrite Hl.
    + split; intros j item Hj Hit; [lia|].
      destruct j as [|j]; [|lia]. simpl in Hit. simplify_eq.
      unfold stopsAt. by rewrite Hl.
Qed.

(** X1. The resolved index is a slot of the list or the slot just past its
    end: it lies between 0 and the length of [dataRef.current], whatever has
    been measured. *)
Theorem resolveIndex_bounds st c :
  0 ≤ resolveIndex keyExtractor st c ≤ Z.of_nat (length (dataRef st)).
Proof.
  unfold resolveIndex. split.
  - apply scan_ge.
  - pose proof (scan_le_length keyExtractor (layouts st) (dataRef st) c 0).
    lia.
Qed.

(** X2. The resolved index is the first item the loop does not pass: every
    earlier item is measured with its trailing boundary strictly below the
    client position, and the item at the resolved index, if the list has one
    there, is unmeasured or has its trailing boundary at or above it. *)
Theorem resolveIndex_first_stop st c :
  let r := resolveIndex keyExtractor st c in
  (∀ (j : nat) item, Z.of_nat j < r → dataRef st !! j = Some item →
     passes keyExtractor (layouts st) c item (Z.of_nat j)) ∧
  (∀ (j : nat) item, Z.of_nat j = r → dataRef st !! j = Some item →
     stopsAt keyExtractor (layouts st) c item r).
Proof.
  intros r.
  destruct (scan_sound (layouts st) (dataRef st) c 0) as [H1 H2].
  split; intros j item Hj Hit.
  - specialize (H1 j item). rewrite Z.add_0_l in H1. by apply H1.
  - specialize (H2 j item). rewrite Z.add_0_l in H2. by apply H2.
Qed.

End ResolverFacts.

(** Reduce the projections of an explicit [State], and nothing else. *)
Ltac proj_simpl :=
  cbn [fst snd data activeKey activeIndex reorderingRef panIndex extra layouts
       dataRef panGrantedRef reorderRef flatRef flatWrapLayout scrollPos pan
       pos extent].

Section MoveFacts.

Context {T : Type}.
Variable keyExtractor : T → Z → string.
Variable props : Props.

Implicit Types (st : State T) (g : GestureState).

(** The move handler while an item is active and measured. *)
Lemma move_active st g key l :
  truthy (activeKey st) = true →
  activeKey st = Some key →
  layouts st !! key = Some l →
  let c := clientPosOf props g st in
  let curIndex := resolveIndex keyExtractor st c in
  let changed := negb (panIndex st =? curIndex) in
  onPanResponderMove keyExtractor props g st =
    ({| data := data st; activeKey := activeKey st;
        activeIndex := activeIndex st; reorderingRef := reorderingRef st;
        panIndex := curIndex;
        extra := if changed then mkExtra None curIndex else extra st;
        layouts := layouts st; dataRef := dataRef st;
        panGrantedRef := panGrantedRef st; reorderRef := reorderRef st;
        flatRef := flatRef st; flatWrapLayout := flatWrapLayout st;
        scrollPos := scrollPos st;
        pan := (c - (pos l + half (extent l)))%Qc |},
     autoScroll (wrapPosOf props g st) (extent l) st ++
     (if changed && hoverRef props then [CallHoverChanged curIndex] else [])).
Proof.
  intros Ht Hk Hl c curIndex changed. unfold onPanResponderMove.
  rewrite Ht, Hk. cbn [mbind option_bind]. by rewrite Hl.
Qed.

(** Without an active, measured item the handler does nothing. *)
Lemma move_inactive st g :
  truthy (activeKey st) = false ∨
  (activeKey st ≫= λ key, layouts st !! key) = None →
  onPanResponderMove keyExtractor props g st = (st, []).
Proof.
  intros [Ht|Hn]; unfold onPanResponderMove.
  - by rewrite Ht.
  - rewrite Hn. by destruct (truthy (activeKey st)).
Qed.

Lemma autoScroll_only_scrolls st w e o :
  o ∈ autoScroll w e st → ∃ off, o = ScrollToOffset true off.
Proof.
  unfold autoScroll. repeat case_match; intros Ho;
    try (by apply elem_of_nil in Ho).
  apply list_elem_of_singleton in Ho. eauto.
Qed.

Lemma move_cases st g :
  (truthy (activeKey st) = false ∨
   (activeKey st ≫= λ key, layouts st !! key) = None) ∨
  ∃ key l, truthy (activeKey st) = true ∧ activeKey st = Some key ∧
           layouts st !! key = Some l.
Proof.
  destruct (truthy (activeKey st)) eqn:Ht; [|by left; left].
  destruct (activeKey st) as [key|] eqn:Hk; [|done].
  destruct (layouts st !! key) as [l|] eqn:Hl.
  - right. by exists key, l.
  - left. right. exact Hl.
Qed.

(** X3. Handling the same pointer position again changes nothing and does
    not call [onHoverChanged] a second time: the hover callback is only
    called when the resolved index changes. *)
Theorem move_again_is_silent st g :
  let r1 := onPanResponderMove keyExtractor props g st in
  let r2 := onPanResponderMove keyExtractor props g r1.1 in
  r2.1 = r1.1 ∧ ∀ i, CallHoverChanged i ∉ r2.2.
Proof.
  intros r1 r2. subst r2 r1.
  destruct (move_cases st g) as [Hno|(key & l & Ht & Hk & Hl)].
  - rewrite (move_inactive st g Hno). cbn [fst].
    rewrite (move_inactive st g Hno). split; [done|].
    intros i Hi. by apply elem_of_nil in Hi.
  - rewrite (move_active st g key l Ht Hk Hl). cbn [fst].
    match goal with
    | |- context [onPanResponderMove _ _ _ ?s] =>
        rewrite (move_active s g key l Ht Hk Hl)
    end.
    unfold clientPosOf, wrapPosOf, resolveIndex. proj_simpl.
    rewrite Z.eqb_refl. cbn [negb andb]. split; [reflexivity|].
    intros i Hi. rewrite app_nil_r in Hi.
    apply autoScroll_only_scrolls in Hi as [off Hoff]. discriminate.
Qed.

(** X4. After a move of an active, measured item, a release calls the
    reorder handler only with [fromIndex] the index the drag started at and
    with [toIndex] between 0 and the length of the list, different from
    [fromIndex].  [toIndex] may be the length itself, one past the last
    slot: only the last item is kept from being dropped there. *)
Theorem reorder_arguments_in_range st g key l f t :
  truthy (activeKey st) = true →
  activeKey st = Some key →
  layouts st !! key = Some l →
  let st1 := (onPanResponderMove keyExtractor props g st).1 in
  (f, t) ∈ reorderCalls (onPanResponderRelease props st1).1.2 →
  f = activeIndex st ∧ t ≠ f ∧ 0 ≤ t ≤ Z.of_nat (length (dataRef st)) ∧
  ¬ (f = Z.of_nat (length (dataRef st)) - 1 ∧ f < t).
Proof.
  intros Ht Hk Hl st1. subst st1.
  rewrite (move_active st g key l Ht Hk Hl). cbn [fst].
  set (c := clientPosOf props g st).
  assert (0 ≤ resolveIndex keyExtractor st c ≤ Z.of_nat (length (dataRef st)))
    as Hb.
  { unfold resolveIndex.
    pose proof (scan_ge keyExtractor (layouts st) (dataRef st) c 0).
    pose proof (scan_le_length keyExtractor (layouts st) (dataRef st) c 0).
    lia. }
  unfold onPanResponderRelease.
  destruct (shouldReorder _) eqn:Hs; cbn [fst snd].
  - apply shouldReorder_spec in Hs. destruct Hs as [Hne Hlast].
    revert Hne Hlast. proj_simpl. intros Hne Hlast.
    destruct (onDragEnd props), (reorderRef st); cbn;
      intros Hin; try (by apply elem_of_nil in Hin);
      apply list_elem_of_singleton in Hin; simplify_eq; repeat split;
      auto; lia.
  - destruct (onDragEnd props); cbn; intros Hin; by apply elem_of_nil in Hin.
Qed.

End MoveFacts.

Section SessionFacts.

Context {T : Type}.
Variable keyExtractor : T → Z → string.
Variable props : Props.

Implicit Types (st : State T) (g : GestureState) (ev : Event T).

Lemma reorderCalls_app (a b : list Output) :
  reorderCalls (a ++ b) = reorderCalls a ++ reorderCalls b.
Proof. apply omap_app. Qed.

Lemma step_shortIdle st ev :
  shortIdle st →
  (∀ d r, ev = PropsChanged d r → (length d ≤ 1)%nat) →
  shortIdle (fst (step keyExtractor props ev st)) ∧
  reorderCalls (snd (step keyExtractor props ev st)) = [].
Proof.
  intros (Hlen & Hk & Hidx) Hev. unfold shortIdle.
  destruct ev; cbn [step fst snd].
  - unfold onDragStart.
    assert ((1 <? Z.of_nat (length (data st))) = false) as ->
      by (apply Z.ltb_ge; lia).
    done.
  - unfold onDragEnd_item. by rewrite Hk.
  - unfold onPanResponderGrant. cbn [fst snd]. proj_simpl.
    by destruct (onDragBegin props).
  - done.
  - rewrite move_inactive by (left; by rewrite Hk). done.
  - unfold onPanResponderRelease, shouldReorder.
    rewrite Hidx, Z.eqb_refl. cbn [negb andb fst snd]. proj_simpl.
    by destruct (onDragEnd props).
  - destruct o; cbn [onPanResponderRelease_resume fst]; done.
  - unfold onDragScroll. cbn [fst snd]. proj_simpl.
    by destruct (onScroll props).
  - unfold onDragLayout. cbn [fst snd]. by destruct (onLayout props).
  - done.
  - done.
  - cbn. repeat split; try done. by eapply Hev.
Qed.

(** X7. A list of at most one item is never dragged: whatever events
    arrive, as long as the list stays that short, no item becomes active, the
    responder is never granted and the reorder handler is never called. *)
Theorem short_list_never_drags d r evs :
  (length d ≤ 1)%nat →
  Forall (λ ev, ∀ d' r', ev = PropsChanged d' r' → (length d' ≤ 1)%nat) evs →
  let st := run keyExtractor props evs (initial d r) in
  activeKey st = None ∧
  (∀ g, enabled (ResponderGrant g) st = false) ∧
  reorderCalls (trace keyExtractor props evs (initial d r)) = [].
Proof.
  intros Hd Hevs.
  assert (shortIdle (initial d r)) as Hinit by done.
  revert Hinit. generalize (initial d r).
  induction Hevs as [|ev evs Hev _ IH]; intros st0 Hst0.
  - destruct Hst0 as (_ & Hk & _). cbn [run trace]. repeat split; try done.
    intros g. cbn. unfold onStartShouldSetPanResponderCapture,
      onStartShouldSetPanResponder, onMoveShouldSetPanResponder,
      onMoveShouldSetPanResponderCapture. by rewrite Hk.
  - destruct (step_shortIdle st0 ev Hst0 Hev) as [Hnext Hout].
    cbn [run trace]. rewrite reorderCalls_app, Hout.
    by apply IH.
Qed.

(** X8. A start that is not followed by a grant is undone by the item's
    [onDragEnd]: the session is as [reset] leaves it.  Once the responder is
    granted, the item's [onDragEnd] does nothing, and the drag goes on until
    the release. *)
Theorem abandoned_start_is_reset st item index g :
  1 < Z.of_nat (length (data st)) →
  panGrantedRef st = false →
  let armed := onDragStart keyExtractor item index st in
  let granted := (onPanResponderGrant props g armed).1 in
  onDragEnd_item armed = reset st ∧ onDragEnd_item granted = granted.
Proof.
  intros Hlen Hg armed granted. subst granted armed.
  unfold onDragStart. apply Z.ltb_lt in Hlen. rewrite Hlen.
  unfold onDragEnd_item, onPanResponderGrant. proj_simpl.
  rewrite Hg. done.
Qed.

(** X9. A release that runs to its end, with the handler (if it was called)
    succeeding, leaves exactly what [reset] leaves: the session is cleared
    and the latch is open again, while the data, the measurements and the
    scroll position are untouched. *)
Theorem release_fulfilled_is_reset st :
  reorderingRef st = false →
  let r := onPanResponderRelease props st in
  (if r.2 then (onPanResponderRelease_resume Fulfilled r.1.1).1 else r.1.1)
  = reset st.
Proof.
  intros Hl. unfold onPanResponderRelease.
  destruct (shouldReorder st); cbn [fst snd]; [|done].
  unfold onPanResponderRelease_resume, reset, set_reorderingRef.
  proj_simpl. by rewrite Hl.
Qed.

Lemma enabled_grant_truthy st g :
  enabled (ResponderGrant g) st = true →
  truthy (activeKey st) = true ∧ reorderingRef st = false.
Proof.
  cbn. unfold onStartShouldSetPanResponderCapture,
    onStartShouldSetPanResponder, onMoveShouldSetPanResponder,
    onMoveShouldSetPanResponderCapture.
  destruct (truthy (activeKey st)), (reorderingRef st); done.
Qed.

Lemma step_atRest st ev :
  enabled ev st = true →
  (activeKey st = None → atRest st) →
  activeKey (step keyExtractor props ev st).1 = None →
  atRest (step keyExtractor props ev st).1.
Proof.
  intros Hen Hinv. destruct ev; cbn [step fst snd].
  - unfold onDragStart. case_match; [done|]. exact Hinv.
  - unfold onDragEnd_item.
    destruct (activeKey st) eqn:Hk; [|by intros _; apply Hinv].
    destruct (panGrantedRef st); cbn [negb]; [|done].
    by rewrite Hk.
  - apply enabled_grant_truthy in Hen as [Ht _].
    unfold onPanResponderGrant. proj_simpl.
    intros Hk. by rewrite Hk in Ht.
  - exact Hinv.
  - destruct (move_cases st g) as [Hno|(key & l & Ht & Hk & Hl)].
    + by rewrite (move_inactive keyExtractor props st g Hno).
    + rewrite (move_active keyExtractor props st g key l Ht Hk Hl).
      proj_simpl. by rewrite Hk.
  - unfold onPanResponderRelease.
    destruct (shouldReorder st); cbn [fst snd]; [exact Hinv|done].
  - destruct o; cbn [onPanResponderRelease_resume fst]; [done|exact Hinv].
  - exact Hinv.
  - exact Hinv.
  - exact Hinv.
  - exact Hinv.
  - exact Hinv.
Qed.

(** X10. From the first render on, along events the platform can deliver,
    whenever no item is active the whole session is at rest: [activeIndex]
    and [panIndex] are -1, [pan] is 0, the captured flag is cleared and
    [extra] is [{activeKey: null, panIndex: -1}]. *)
Theorem idle_is_at_rest d r evs :
  admissible keyExtractor props evs (initial d r) = true →
  let st := run keyExtractor props evs (initial d r) in
  activeKey st = None → atRest st.
Proof.
  assert (activeKey (initial d r) = None → atRest (initial d r)) as Hinit
    by done.
  revert Hinit. generalize (initial d r).
  induction evs as [|ev evs IH]; intros st0 Hst0 Hadm; cbn [run].
  - exact Hst0.
  - cbn [admissible] in Hadm. apply andb_true_iff in Hadm as [Hen Hadm].
    apply IH; [|done]. by apply step_atRest.
Qed.

(** X11. After a start on a list of more than one item, with the latch
    open, the responder can be granted exactly when the key of the item is
    not the empty string: an item with an empty key cannot be dragged. *)
Theorem start_capturable_iff_key st item index g :
  1 < Z.of_nat (length (data st)) →
  reorderingRef st = false →
  enabled (ResponderGrant g) (onDragStart keyExtractor item index st) = true
  ↔ keyExtractor item index ≠ EmptyString.
Proof.
  intros Hlen Hl. unfold onDragStart. apply Z.ltb_lt in Hlen. rewrite Hlen.
  cbn. unfold onStartShouldSetPanResponderCapture,
    onStartShouldSetPanResponder, onMoveShouldSetPanResponder,
    onMoveShouldSetPanResponderCapture. proj_simpl. rewrite Hl.
  destruct (keyExtractor item index); cbn; split; done.
Qed.

End SessionFacts.

Section LayoutFacts.

Context {T : Type}.
Variable keyExtractor : T → Z → string.
Variable props : Props.

Implicit Types (st : State T) (ev : Event T) (key : string).

(** Every handler but [onCellLayout] leaves [layouts] alone, and
    [onCellLayout] writes at most one entry. *)
Lemma step_layouts st ev :
  layouts (step keyExtractor props ev st).1 =
    match ev with
    | CellLayout key layout =>
        if decide (key = protoKey) then layouts st
        else <[key := axisLayout props layout]> (layouts st)
    | _ => layouts st
    end.
Proof.
  destruct ev; cbn [step fst snd]; try done.
  - unfold onDragStart. by case_match.
  - unfold onDragEnd_item. by repeat case_match.
  - destruct (move_cases st g) as [Hno|(key & l & Ht & Hk & Hl)].
    + by rewrite (move_inactive keyExtractor props st g Hno).
    + by rewrite (move_active keyExtractor props st g key l Ht Hk Hl).
  - unfold onPanResponderRelease. by destruct (shouldReorder st).
  - by destruct o.
Qed.

(** X12. Measurements are never dropped: a key that has a [layouts] entry
    still has one after any events, also across drags and changes of the
    data. *)
Theorem layouts_only_grow st evs key :
  is_Some (layouts st !! key) →
  is_Some (layouts (run keyExtractor props evs st) !! key).
Proof.
  revert st. induction evs as [|ev evs IH]; intros st Hk; cbn [run]; [done|].
  apply IH. rewrite step_layouts.
  destruct ev; try done.
  case_decide; [done|].
  rewrite lookup_insert_is_Some. destruct (decide (key0 = key)); auto.
Qed.

(** X13. The last report of a cell is the entry of its key: after
    [onCellLayout] for a key other than [__proto__], and any events that are
    not a layout of that same key, the [layouts] entry of the key is the
    position and extent of that report along the scroll axis.  For the key
    [__proto__] no entry is ever stored. *)
Theorem cell_layout_is_kept st key layout evs :
  Forall (λ ev, ∀ layout', ev ≠ CellLayout key layout') evs →
  let st' := run keyExtractor props evs (onCellLayout props key layout st) in
  (key ≠ protoKey → layouts st' !! key = Some (axisLayout props layout)) ∧
  (key = protoKey → layouts st' !! key = layouts st !! key).
Proof.
  intros Hevs st'. subst st'.
  assert (∀ st0 : State T,
    layouts (run keyExtractor props evs st0) !! key = layouts st0 !! key)
    as Hrun.
  { induction Hevs as [|ev evs Hev _ IH]; intros st0; cbn [run]; [done|].
    rewrite IH, step_layouts. destruct ev; try done.
    case_decide; [done|].
    rewrite lookup_insert_ne; [done|]. intros ->. by eapply Hev. }
  rewrite Hrun. unfold onCellLayout. proj_simpl. split; intros Hkey.
  - rewrite decide_False by done. apply lookup_insert_eq.
  - by rewrite decide_True.
Qed.

(** X14. The engine treats both orientations alike: a horizontal list that
    receives the events of a vertical one with the two axes exchanged goes
    through the same states and makes the same calls. *)
Theorem axes_are_symmetric st ev :
  step keyExtractor (flipAxis props) (transpose ev) st =
  step keyExtractor props ev st.
Proof.
  destruct props as [h b e hv sc ly rs].
  destruct ev; destruct h; reflexivity.
Qed.

(** X15. A backward auto-scroll stays inside the list: when the leading
    edge of the dragged cell is above the container, the scroll position and
    the extent being non-negative, every request is animated and asks for an
    offset that is at least 0 and strictly less than the current one. *)
Theorem autoScroll_backward_in_range st w e a off :
  (w - half e < 0)%Qc →
  (0 ≤ scrollPos st)%Qc →
  (0 ≤ e)%Qc →
  ScrollToOffset a off ∈ autoScroll w e st →
  a = true ∧ (0 ≤ off)%Qc ∧ (off < scrollPos st)%Qc.
Proof.
  intros Hlead Hsp He. unfold autoScroll, scrollOffset.
  rewrite (decide_True (P := (_ < 0)%Qc)) by done.
  assert (∀ x : Qc, (0 ≤ x)%Qc → (- x)%Qc ≠ 0%Qc → (0 < x)%Qc) as Hpos.
  { intros x Hx Hnz. destruct (Qcle_lt_or_eq _ _ Hx) as [?| <-]; [done|].
    by destruct Hnz. }
  assert (∀ x : Qc, (0 < x)%Qc → (scrollPos st + - x < scrollPos st)%Qc)
    as Hless.
  { intros x Hx. rewrite <- (Qcplus_0_r (scrollPos st)) at 2.
    apply Qcplus_lt_mono_l, Qclt_minus_iff.
    by rewrite Qcopp_involutive, Qcplus_0_l. }
  destruct (decide (e ≤ scrollPos st)%Qc) as [Hle|Hgt];
    case_decide as Hnz; destruct (flatRef st); intros Hin;
    try (by apply elem_of_nil in Hin);
    apply list_elem_of_singleton in Hin; simplify_eq.
  - repeat split.
    + by apply (proj1 (Qcle_minus_iff _ _)).
    + apply Hless. by apply Hpos.
  - rewrite Qcplus_opp_r. repeat split; [done|]. by apply Hpos.
Qed.

End LayoutFacts.

Section MountFacts.

(** X16. A cell that mounts ends with [anim] heading to 0 whatever the drag
    is doing, because the second effect runs after the first with the
    [isOffset] of the first render: a cell that mounts inside the displaced
    range is marked as offset but is not displaced, while the same cell,
    mounted before and updated, is displaced. *)
Theorem mounted_cell_is_not_displaced ctx key index v :
  displacementEffect ctx key index = ([Timing v], true) →
  cellMount ctx key index = {| anim := 0%Qc; isOffset := true |} ∧
  cellUpdate ctx key index {| anim := 0%Qc; isOffset := false |}
  = {| anim := v; isOffset := true |}.
Proof.
  intros He. unfold cellMount, cellUpdate. by rewrite He.
Qed.

End MountFacts.

(** ** The further properties on the concrete list *)

Section MoreExamples.

Lemma resolveIndex_first_stop_witness :
  passes keyOf (layouts measured3) (px 120) "a"%string 0 ∧
  stopsAt keyOf (layouts measured3) (px 120) "c"%string 2.
Proof.
  pose proof (resolveIndex_first_stop keyOf measured3 (px 120)) as [Hp Hs].
  split.
  - apply (Hp 0%nat "a"%string); reflexivity.
  - apply (Hs 2%nat "c"%string); reflexivity.
Defined.

(** Item ["a"] dropped below the last cell: the handler is called with
    [toIndex] 3, the length of the list. *)
Lemma reorder_arguments_in_range_witness :
  (0, 3) ∈ reorderCalls (onPanResponderRelease vertical below3).1.2 ∧
  0 ≤ 3 ≤ Z.of_nat (length (dataRef dragging3)).
Proof.
  assert ((0, 3) ∈ reorderCalls (onPanResponderRelease vertical below3).1.2)
    as Hin by (apply (bool_decide_unpack _); vm_compute; reflexivity).
  split; [exact Hin|].
  apply (reorder_arguments_in_range keyOf vertical dragging3 (gesture 25 435)
           "a"%string (mkPosExtent (px 0) (px 50)) 0 3
           eq_refl eq_refl eq_refl Hin).
Defined.

Lemma short_list_never_drags_witness :
  activeKey
    (run keyOf vertical
       [ItemDragStart "a"%string 0; ResponderMove (gesture 25 100);
        ResponderRelease]
       (initial ["a"%string] true)) = None.
Proof.
  apply (short_list_never_drags keyOf vertical ["a"%string] true
           [ItemDragStart "a"%string 0; ResponderMove (gesture 25 100);
            ResponderRelease]).
  - simpl. lia.
  - repeat (apply List.Forall_cons; [intros d' r'; discriminate|]).
    apply List.Forall_nil.
Defined.

Lemma abandoned_start_is_reset_witness :
  onDragEnd_item (onDragStart keyOf "a"%string 0 measured3) = reset measured3.
Proof.
  apply (abandoned_start_is_reset keyOf vertical measured3 "a"%string 0
           (gesture 25 0)); reflexivity.
Defined.

Lemma release_fulfilled_is_reset_witness :
  (onPanResponderRelease_resume Fulfilled
     (onPanResponderRelease vertical hovering3).1.1).1 = reset hovering3.
Proof.
  exact (release_fulfilled_is_reset vertical hovering3 eq_refl).
Defined.

Lemma idle_is_at_rest_witness :
  atRest (run keyOf vertical [ItemDragStart "a"%string 0; ItemDragEnd]
            (initial abc true)).
Proof.
  apply (idle_is_at_rest keyOf vertical abc true
           [ItemDragStart "a"%string 0; ItemDragEnd]); reflexivity.
Defined.

Lemma start_capturable_iff_key_witness :
  enabled (ResponderGrant (gesture 25 0))
    (onDragStart keyOf "a"%string 0 measured3) = true.
Proof.
  apply (start_capturable_iff_key keyOf measured3 "a"%string 0 (gesture 25 0)).
  - reflexivity.
  - reflexivity.
  - discriminate.
Defined.

Lemma layouts_only_grow_witness :
  is_Some (layouts
    (run keyOf vertical
       [ItemDragStart "a"%string 0; ItemDragEnd;
        PropsChanged ["b"%string; "c"%string] true]
       measured3) !! "a"%string).
Proof.
  apply (layouts_only_grow keyOf vertical measured3).
  eexists. vm_compute. reflexivity.
Defined.

Lemma cell_layout_is_kept_witness :
  layouts
    (run keyOf vertical [cellAt "b" 60 50; Scrolled 0%Qc (px 20)]
       (onCellLayout vertical "a"%string
          (mkLayoutRect 0%Qc (px 0) (px 300) (px 60)) measured3))
    !! "a"%string
  = Some (mkPosExtent (px 0) (px 60)).
Proof.
  assert (Forall (λ ev, ∀ layout', ev ≠ CellLayout "a"%string layout')
            [cellAt "b" 60 50; Scrolled 0%Qc (px 20)]) as Hevs.
  { repeat (apply List.Forall_cons; [intros layout'; discriminate|]).
    apply List.Forall_nil. }
  destruct (cell_layout_is_kept keyOf vertical measured3 "a"%string
              (mkLayoutRect 0%Qc (px 0) (px 300) (px 60)) _ Hevs)
    as [Hkeep _].
  apply Hkeep. discriminate.
Defined.

(** Scrolled to 100, a cell of height 50 dragged to 10 below the top of the
    container: the request goes to 50. *)
Lemma autoScroll_backward_in_range_witness :
  let off := (scrollPos scrolled3 + - px 50)%Qc in
  (0 ≤ off)%Qc ∧ (off < scrollPos scrolled3)%Qc.
Proof.
  intros off.
  assert (ScrollToOffset true off ∈ autoScroll (px 10) (px 50) scrolled3)
    as Hin by (apply (bool_decide_unpack _); vm_compute; reflexivity).
  destruct (autoScroll_backward_in_range scrolled3 (px 10) (px 50) true off)
    as (_ & H0 & H1); try done.
Defined.

Lemma mounted_cell_is_not_displaced_witness :
  cellMount (provide vertical hovering3) "b"%string 1
  = {| anim := 0%Qc; isOffset := true |}.
Proof.
  apply (mounted_cell_is_not_displaced (provide vertical hovering3)
           "b"%string 1 (- px 50)%Qc).
  reflexivity.
Defined.

End MoreExamples.
